(** * RocketLST air board: board-adaptation layer (radios/rocketlst_air/board.h)

    A shallow embedding of the board header of the RocketLST air radio:
    the build-time configuration macros, the special-function registers
    the header touches, and the transmit/receive hooks [board_pre_tx] and
    [board_pre_rx] that drive the bias of the on-board RF power amplifier
    through port bit P2.0.

    Registers are 8-bit values carried as [Z]; a single-bit write is the
    8051 bit instruction (SETB / CLR), written with [Z.setbit] and
    [Z.clearbit], which touch one bit and leave the other seven alone. *)

From Stdlib Require Import ZArith Bool List Lia.
Import ListNotations.
Open Scope Z_scope.

(** ** Build-time configuration (the [#define]s of board.h) *)

(* We use a 27MHz clock *)
Definition F_CLK : Z := 27000000.

Definition CUSTOM_BOARD_INIT : Z := 1.
Definition BOARD_HAS_TX_HOOK : Z := 1.
Definition BOARD_HAS_RX_HOOK : Z := 1.
Definition CONFIG_CAPABLE_RF_RX : Z := 0.
Definition CONFIG_CAPABLE_RF_TX : Z := 1.

(* don't auto reboot *)
Definition AUTO_REBOOT_SECONDS : Z := 0.

(* -20dbm, at CC *)
Definition RF_PA_CONFIG : Z := 0x0E.

(* Enable the power supply sense lines AN0 and AN1: 0b00000011 *)
Definition ADCCFG_CONFIG : Z := 3.

Definition RADIO_RANGING_RESPONDER : Z := 1.

Definition BOARD_HAS_LED : Z := 1.

(** A configuration macro read the way the preprocessor reads it in
    [#if FLAG]: any non-zero value enables the feature. *)
Definition enabled (flag : Z) : bool := negb (flag =? 0).

(** The capability flags of the board, gathered in one record. *)
Record CapabilitySet : Type := mkCapabilitySet {
  tx_capable : bool;
  rx_capable : bool;
  ranging_responder : bool;
  has_led : bool;
  has_custom_init : bool;
  has_tx_hook : bool;
  has_rx_hook : bool
}.

Definition capabilities : CapabilitySet := {|
  tx_capable := enabled CONFIG_CAPABLE_RF_TX;
  rx_capable := enabled CONFIG_CAPABLE_RF_RX;
  ranging_responder := enabled RADIO_RANGING_RESPONDER;
  has_led := enabled BOARD_HAS_LED;
  has_custom_init := enabled CUSTOM_BOARD_INIT;
  has_tx_hook := enabled BOARD_HAS_TX_HOOK;
  has_rx_hook := enabled BOARD_HAS_RX_HOOK
|}.

(** ** Hardware state *)

(** The mutable signal surface of the board.  [P2] is the port-2 latch,
    whose bit 0 biases the RF6504 power amplifier; [ADCCFG] is the ADC
    input-enable register that [ADCCFG_CONFIG] is meant for; [led] is
    the status LED output. *)
Record board : Type := mkBoard {
  P2 : Z;
  ADCCFG : Z;
  led : bool
}.

Definition is_byte (x : Z) : Prop := 0 <= x < 256.

(** Both registers hold 8-bit values. *)
Definition wf (s : board) : Prop := is_byte (P2 s) /\ is_byte (ADCCFG s).

(** Reading and writing one bit of a bit-addressable register.  The value
    assigned to an [__sbit] is truncated to its truth value. *)
Definition sbit_read (reg : Z) (bit : Z) : bool := Z.testbit reg bit.

Definition sbit_write (reg : Z) (bit : Z) (v : Z) : Z :=
  if v =? 0 then Z.clearbit reg bit else Z.setbit reg bit.

(** [P2_0] as an rvalue and as an lvalue. *)
Definition P2_0 (s : board) : bool := sbit_read (P2 s) 0.

Definition set_P2_0 (v : Z) (s : board) : board :=
  {| P2 := sbit_write (P2 s) 0 v; ADCCFG := ADCCFG s; led := led s |}.

(** The power-amplifier bias line is asserted when P2.0 is high. *)
Definition bias_line (s : board) : bool := P2_0 s.

(** ** The hooks *)

(* Enable bias to on-board 1W RF power amp (RF6504):
   #define board_pre_tx() P2_0 = 1; *)
Definition board_pre_tx (s : board) : board := set_P2_0 1 s.

(* Disable on-board power amp bias, to save power:
   #define board_pre_rx() P2_0 = 0; *)
Definition board_pre_rx (s : board) : board := set_P2_0 0 s.

(** Modelled from the spec: the body of [void board_init(void)] is not in
    board.h (only its prototype is).  The spec says [init] performs the
    peripheral enables for the ADC channel mask, leaving the mask enabled
    for the configured channels and no others; it names no other register
    value, so the model writes [ADCCFG_CONFIG] to [ADCCFG] and leaves the
    two output signals as they were. *)
Definition board_init (s : board) : board :=
  {| P2 := P2 s; ADCCFG := ADCCFG_CONFIG; led := led s |}.

(** Modelled from the spec: the body of
    [void board_led_set(__bit led_on)] is not in board.h (only its
    prototype is).  The spec says [led_set(on)] drives the status LED, a
    single binary output mutated only through this operation. *)
Definition board_led_set (led_on : bool) (s : board) : board :=
  {| P2 := P2 s; ADCCFG := ADCCFG s; led := led_on |}.

(** Modelled from the spec: the state of the signals at boot, before any
    operation of this layer has run, is fixed by the hardware reset and is
    not described by board.h.  The spec's scenario has the bias line
    deasserted at boot (default-off); the LED is off and no ADC input is
    enabled yet. *)
Definition boot_state : board := {| P2 := 0; ADCCFG := 0; led := false |}.

(** ** Calls and call sequences *)

(** The two radio-transition hooks. *)
Inductive hook : Type :=
| pre_transmit
| pre_receive.

(** Every operation the layer exposes to the radio stack. *)
Inductive call : Type :=
| init
| led_set (led_on : bool)
| transition (h : hook).

Definition exec_hook (h : hook) (s : board) : board :=
  match h with
  | pre_transmit => board_pre_tx s
  | pre_receive => board_pre_rx s
  end.

Definition exec (c : call) (s : board) : board :=
  match c with
  | init => board_init s
  | led_set led_on => board_led_set led_on s
  | transition h => exec_hook h s
  end.

(** Calls are made one after the other, oldest first. *)
Definition run_hooks (hs : list hook) (s : board) : board :=
  fold_left (fun acc h => exec_hook h acc) hs s.

Definition run (cs : list call) (s : board) : board :=
  fold_left (fun acc c => exec c acc) cs s.

(** The level the bias line must have after a hook. *)
Definition dictated (h : hook) : bool :=
  match h with
  | pre_transmit => true
  | pre_receive => false
  end.

(** The level of the bias line tracked along a sequence of calls. *)
Definition bias_step (b : bool) (c : call) : bool :=
  match c with
  | transition h => dictated h
  | _ => b
  end.

Definition bias_after (cs : list call) (b : bool) : bool :=
  fold_left bias_step cs b.

(** ADC input channel [ch] is enabled when its bit of the mask is set. *)
Definition adc_channel_enabled (s : board) (ch : nat) : bool :=
  Z.testbit (ADCCFG s) (Z.of_nat ch).

(** The enabled channels among the eight the register has. *)
Definition adc_channels (s : board) : list nat :=
  filter (adc_channel_enabled s) (seq 0 8).

(** The cells of the board state, one by one: each bit of the port-2
    latch, the ADC mask register and the LED output.  A state is known
    once every cell has been read. *)
Inductive cell : Type :=
| reg_P2_bit (n : nat)
| reg_ADCCFG
| out_led.

Definition cell_eqb (x y : cell) : bool :=
  match x, y with
  | reg_P2_bit n, reg_P2_bit m => Nat.eqb n m
  | reg_ADCCFG, reg_ADCCFG => true
  | out_led, out_led => true
  | _, _ => false
  end.

Definition read (x : cell) (s : board) : Z :=
  match x with
  | reg_P2_bit n => Z.b2z (sbit_read (P2 s) (Z.of_nat n))
  | reg_ADCCFG => ADCCFG s
  | out_led => Z.b2z (led s)
  end.

(** ** Bit-level facts about 8-bit registers *)

Lemma nonneg_lt_pow2_bits (x k : Z) :
  0 <= x -> 0 <= k ->
  (x < 2 ^ k <-> forall m, k <= m -> Z.testbit x m = false).
Proof.
  intros Hx Hk; split.
  - intros Hlt m Hm.
    destruct (Z.eq_dec x 0) as [-> | Hnz]; [apply Z.bits_0 |].
    apply Z.bits_above_log2; [assumption |].
    assert (Z.log2 x < k) by (apply Z.log2_lt_pow2; lia). lia.
  - intros Hbits.
    destruct (Z.eq_dec x 0) as [-> | Hnz].
    + apply Z.pow_pos_nonneg; lia.
    + apply Z.log2_lt_pow2; [lia |].
      destruct (Z_lt_le_dec (Z.log2 x) k) as [Hlt | Hge]; [assumption |].
      specialize (Hbits (Z.log2 x) Hge).
      rewrite Z.bit_log2 in Hbits by lia. discriminate.
Qed.

Lemma is_byte_bits (x : Z) :
  is_byte x <-> 0 <= x /\ forall m, 8 <= m -> Z.testbit x m = false.
Proof.
  unfold is_byte. change 256 with (2 ^ 8). split.
  - intros [H0 H1]. split; [assumption |].
    apply nonneg_lt_pow2_bits; lia.
  - intros [H0 H1]. split; [assumption |].
    apply nonneg_lt_pow2_bits; [lia | lia | assumption].
Qed.

Lemma sbit_write_read (reg bit v : Z) :
  0 <= bit ->
  sbit_read (sbit_write reg bit v) bit = negb (v =? 0).
Proof.
  intros Hbit. unfold sbit_read, sbit_write.
  destruct (v =? 0); cbn [negb].
  - apply Z.clearbit_eq.
  - apply Z.setbit_eq. assumption.
Qed.

Lemma sbit_write_other (reg bit v m : Z) :
  0 <= bit -> bit <> m ->
  Z.testbit (sbit_write reg bit v) m = Z.testbit reg m.
Proof.
  intros Hbit Hne. unfold sbit_write.
  destruct (v =? 0).
  - apply Z.clearbit_neq. assumption.
  - apply Z.setbit_neq; assumption.
Qed.

Lemma sbit_write_nonneg (reg bit v : Z) :
  0 <= reg -> 0 <= sbit_write reg bit v.
Proof.
  intros Hreg. unfold sbit_write. destruct (v =? 0).
  - rewrite Z.clearbit_spec'. apply Z.ldiff_nonneg. left; assumption.
  - rewrite Z.setbit_spec'. apply Z.lor_nonneg. split; [assumption |].
    apply Z.pow_nonneg. lia.
Qed.

Lemma sbit_write_is_byte (reg bit v : Z) :
  0 <= bit < 8 -> is_byte reg -> is_byte (sbit_write reg bit v).
Proof.
  intros Hbit Hreg. apply is_byte_bits in Hreg. destruct Hreg as [H0 Hhi].
  apply is_byte_bits. split.
  - apply sbit_write_nonneg. assumption.
  - intros m Hm. rewrite sbit_write_other by lia. apply Hhi. assumption.
Qed.

(** Two states that agree on every cell are the same state. *)
Lemma read_ext (s1 s2 : board) :
  (forall x : cell, read x s1 = read x s2) -> s1 = s2.
Proof.
  intros H. destruct s1 as [p1 a1 l1], s2 as [p2 a2 l2].
  assert (HP : p1 = p2).
  { apply Z.bits_inj'. intros m Hm.
    specialize (H (reg_P2_bit (Z.to_nat m))). cbn [read P2] in H.
    unfold sbit_read in H. rewrite Z2Nat.id in H by assumption.
    destruct (Z.testbit p1 m), (Z.testbit p2 m);
      cbn [Z.b2z] in H; (reflexivity || discriminate). }
  assert (HA : a1 = a2) by exact (H reg_ADCCFG).
  assert (HL : l1 = l2).
  { specialize (H out_led). cbn [read led] in H.
    destruct l1, l2; cbn [Z.b2z] in H; (reflexivity || discriminate). }
  subst. reflexivity.
Qed.

(** ** Helper lemmas on the operations *)

Lemma bias_after_hook (h : hook) (s : board) :
  bias_line (exec_hook h s) = dictated h.
Proof.
  destruct h; unfold bias_line, P2_0; cbn [exec_hook dictated];
    unfold board_pre_tx, board_pre_rx, set_P2_0; cbn [P2];
    rewrite sbit_write_read by lia; reflexivity.
Qed.

Lemma run_hooks_snoc (hs : list hook) (h : hook) (s : board) :
  run_hooks (hs ++ [h]) s = exec_hook h (run_hooks hs s).
Proof.
  unfold run_hooks. rewrite fold_left_app. reflexivity.
Qed.

Lemma run_snoc (cs : list call) (c : call) (s : board) :
  run (cs ++ [c]) s = exec c (run cs s).
Proof.
  unfold run. rewrite fold_left_app. reflexivity.
Qed.

(** Writing a bit that already has the written level changes nothing. *)
Lemma sbit_write_same (reg v : Z) :
  sbit_read reg 0 = negb (v =? 0) -> sbit_write reg 0 v = reg.
Proof.
  unfold sbit_read. intros Hbit. apply Z.bits_inj'. intros m Hm.
  destruct (Z.eq_dec m 0) as [-> | Hne].
  - fold (sbit_read (sbit_write reg 0 v) 0).
    rewrite sbit_write_read by lia. symmetry. exact Hbit.
  - apply sbit_write_other; lia.
Qed.

Lemma exec_hook_idem (h : hook) (s : board) :
  exec_hook h (exec_hook h s) = exec_hook h s.
Proof.
  destruct h; cbn [exec_hook]; unfold board_pre_tx, board_pre_rx, set_P2_0;
    cbn [P2 ADCCFG led]; f_equal; apply sbit_write_same;
    rewrite sbit_write_read by lia; reflexivity.
Qed.

Lemma exec_hook_wf (h : hook) (s : board) : wf s -> wf (exec_hook h s).
Proof.
  intros [HP HA].
  destruct h; cbn [exec_hook]; unfold board_pre_tx, board_pre_rx, set_P2_0;
    (split; cbn [P2 ADCCFG]; [apply sbit_write_is_byte; [lia | exact HP] | exact HA]).
Qed.

Lemma exec_wf (c : call) (s : board) : wf s -> wf (exec c s).
Proof.
  intros Hwf. destruct c as [| led_on | h]; cbn [exec].
  - destruct Hwf as [HP _]. split; cbn [board_init P2 ADCCFG].
    + exact HP.
    + unfold is_byte, ADCCFG_CONFIG. lia.
  - exact Hwf.
  - apply exec_hook_wf. exact Hwf.
Qed.

Lemma run_wf (cs : list call) (s : board) : wf s -> wf (run cs s).
Proof.
  revert s. induction cs as [| c cs IH]; intros s Hwf; cbn.
  - exact Hwf.
  - apply IH. apply exec_wf. exact Hwf.
Qed.

Lemma boot_state_wf : wf boot_state.
Proof. unfold wf, is_byte; cbn; lia. Qed.

(** Only hooks move the bias line: over any sequence of calls it ends
    at the level [bias_after] computes from the starting level. *)
Lemma bias_after_run (cs : list call) (s : board) :
  bias_line (run cs s) = bias_after cs (bias_line s).
Proof.
  revert s. induction cs as [| c cs IH]; intros s;
    cbn [run bias_after fold_left]; [reflexivity |].
  fold (run cs (exec c s)). fold (bias_after cs (bias_step (bias_line s) c)).
  rewrite IH. f_equal.
  destruct c as [| led_on | h]; cbn [exec bias_step];
    [reflexivity | reflexivity | apply bias_after_hook].
Qed.

(** The boot scenario: after [init] and [pre_transmit] the bias line is
    asserted, and it stays asserted across any further calls that are not
    hooks (the transmit window). *)
Lemma bias_held_through_transmit_window (leds : list bool) :
  bias_line
    (run ([init; transition pre_transmit] ++ map led_set leds) boot_state)
  = true.
Proof.
  rewrite bias_after_run. unfold bias_after. rewrite fold_left_app.
  cbn [fold_left bias_step dictated].
  induction leds as [| b leds IH]; cbn [map fold_left bias_step];
    [reflexivity | exact IH].
Qed.

(** ** The transmit/receive sequencing contract *)

(** C1.  After any sequence of [pre_transmit] / [pre_receive] calls, from
    any starting state, the bias line has the level dictated by the last
    call of the sequence; the level does not depend on the earlier calls
    or on the starting state, and calling a hook twice in a row leaves
    the board as calling it once does. *)
Theorem bias_follows_last_hook :
  forall (hs : list hook) (h : hook) (s : board),
    bias_line (run_hooks (hs ++ [h]) s) = dictated h /\
    (forall (hs' : list hook) (s' : board),
        bias_line (run_hooks (hs' ++ [h]) s') =
        bias_line (run_hooks (hs ++ [h]) s)) /\
    exec_hook h (exec_hook h s) = exec_hook h s.
Proof.
  intros hs h s. split; [| split].
  - rewrite run_hooks_snoc. apply bias_after_hook.
  - intros hs' s'. rewrite !run_hooks_snoc, !bias_after_hook. reflexivity.
  - apply exec_hook_idem.
Qed.

(** C2.  [board_pre_tx] asserts the power-amplifier bias line: whatever
    the state before the call, P2.0 reads 1 after it.  The hook is a
    function of the board state alone and is defined on every state. *)
Theorem board_pre_tx_asserts_bias :
  forall s : board, bias_line (board_pre_tx s) = true.
Proof.
  intros s. exact (bias_after_hook pre_transmit s).
Qed.

(** C3.  [board_pre_rx] deasserts the power-amplifier bias line: whatever
    the state before the call, P2.0 reads 0 after it. *)
Theorem board_pre_rx_deasserts_bias :
  forall s : board, bias_line (board_pre_rx s) = false.
Proof.
  intros s. exact (bias_after_hook pre_receive s).
Qed.

(** C4, as stated, fails: the board is built with
    [CONFIG_CAPABLE_RF_RX = 0], yet [board_pre_rx] called with the bias
    line asserted (P2 = 0x01, the value [board_pre_tx] leaves in a cleared
    port) clears it, so the state after the call differs from the state
    before. *)
Lemma board_pre_rx_not_noop :
  CONFIG_CAPABLE_RF_RX = 0 /\
  board_pre_tx {| P2 := 0; ADCCFG := 3; led := false |} =
    {| P2 := 1; ADCCFG := 3; led := false |} /\
  bias_line {| P2 := 1; ADCCFG := 3; led := false |} = true /\
  bias_line (board_pre_rx {| P2 := 1; ADCCFG := 3; led := false |}) = false /\
  board_pre_rx {| P2 := 1; ADCCFG := 3; led := false |} <>
    {| P2 := 1; ADCCFG := 3; led := false |}.
Proof.
  split; [reflexivity |]. split; [reflexivity |].
  split; [reflexivity |]. split; [reflexivity |].
  intros H. apply (f_equal P2) in H. vm_compute in H. discriminate.
Qed.

(** C4, amended.  [board_pre_rx] is not gated by the receive capability:
    with [CONFIG_CAPABLE_RF_RX = 0] and the receive hook present it still
    clears P2.0, and it leaves the board state untouched exactly when the
    bias line was already deasserted. *)
Theorem board_pre_rx_noop_iff_bias_off :
  forall s : board,
    rx_capable capabilities = false /\
    has_rx_hook capabilities = true /\
    bias_line (board_pre_rx s) = false /\
    (board_pre_rx s = s <-> bias_line s = false).
Proof.
  intros s. split; [reflexivity |]. split; [reflexivity |].
  split; [exact (bias_after_hook pre_receive s) |].
  split.
  - intros Heq. rewrite <- Heq. exact (bias_after_hook pre_receive s).
  - intros Hoff. destruct s as [p2 adc l].
    unfold board_pre_rx, set_P2_0; cbn [P2 ADCCFG led]. f_equal.
    apply sbit_write_same. exact Hoff.
Qed.

(** C5.  The board is built transmit-capable and not receive-capable
    ([CONFIG_CAPABLE_RF_TX = 1], [CONFIG_CAPABLE_RF_RX = 0], so the
    capability set has tx on and rx off), and in the boot state, before
    any hook has run, the bias line is deasserted. *)
Theorem capability_flags_and_boot_bias :
  CONFIG_CAPABLE_RF_TX = 1 /\
  CONFIG_CAPABLE_RF_RX = 0 /\
  tx_capable capabilities = true /\
  rx_capable capabilities = false /\
  bias_line boot_state = false.
Proof.
  repeat split.
Qed.

(** C6.  After [board_init] the ADC mask register holds [0b00000011]:
    input channels 0 and 1 (AN0, AN1) are enabled and no other channel
    is, whatever the register held before. *)
Theorem board_init_adc_mask :
  forall s : board,
    ADCCFG (board_init s) = 3 /\
    adc_channels (board_init s) = [0%nat; 1%nat] /\
    (forall ch : nat,
        adc_channel_enabled (board_init s) ch =
        (Nat.eqb ch 0 || Nat.eqb ch 1)%bool).
Proof.
  intros s. split; [reflexivity |]. split; [reflexivity |].
  intros ch. unfold adc_channel_enabled; cbn [board_init ADCCFG].
  destruct ch as [| [| ch]]; [reflexivity | reflexivity |].
  cbn [Nat.eqb orb]. apply Z.bits_above_log2.
  - unfold ADCCFG_CONFIG. lia.
  - change (Z.log2 ADCCFG_CONFIG) with 1. lia.
Qed.

(** C7.  [board_led_set true] followed by [board_led_set false] leaves
    the LED deasserted, and setting the LED to the value it was just set
    to leaves the whole board state as the first call left it. *)
Theorem board_led_set_last_wins :
  forall s : board,
    led (board_led_set false (board_led_set true s)) = false /\
    (forall led_on : bool,
        board_led_set led_on (board_led_set led_on s) = board_led_set led_on s).
Proof.
  intros s. split; [reflexivity |]. intros led_on. reflexivity.
Qed.

(** C8.  Every operation of the layer ([init], [led_set], [pre_transmit],
    [pre_receive]) is an unconditional register write with no error
    outcome.  Each is a state transformer that returns no value (the C
    operations are [void]); from every state, whatever it holds, the call
    leaves one cell with a value fixed by the call alone (the ADC mask
    with [ADCCFG_CONFIG], the LED with the argument, P2.0 with 1 or 0)
    and every other cell as it was.  No state is treated apart: there is
    no branch on which the write is skipped, replaced or accompanied by
    another change. *)
Theorem calls_are_unconditional_writes :
  forall (s : board) (x : cell),
    read x (board_init s) =
      (if cell_eqb x reg_ADCCFG then ADCCFG_CONFIG else read x s) /\
    (forall led_on : bool,
        read x (board_led_set led_on s) =
          (if cell_eqb x out_led then Z.b2z led_on else read x s)) /\
    read x (board_pre_tx s) =
      (if cell_eqb x (reg_P2_bit 0) then 1 else read x s) /\
    read x (board_pre_rx s) =
      (if cell_eqb x (reg_P2_bit 0) then 0 else read x s).
Proof.
  intros s x. destruct x as [n | |].
  - split; [reflexivity |]. split; [intros led_on; reflexivity |].
    unfold board_pre_tx, board_pre_rx, set_P2_0; cbn [read cell_eqb P2].
    destruct n as [| n]; cbn [Nat.eqb].
    + rewrite !sbit_write_read by lia. split; reflexivity.
    + unfold sbit_read. rewrite !sbit_write_other by lia. split; reflexivity.
  - split; [reflexivity |]. split; [intros led_on; reflexivity |].
    split; reflexivity.
  - split; [reflexivity |]. split; [intros led_on; reflexivity |].
    split; reflexivity.
Qed.

(** C9.  Frame of the hooks: [board_pre_tx] and [board_pre_rx] write bit 0
    of P2 and nothing else.  The LED output, the ADC mask and bits 1 and
    up of P2 are as before the call.  (The capability, clock and power
    settings are constants of the build, not fields of the state.) *)
Theorem hooks_write_only_P2_0 :
  forall (h : hook) (s : board),
    led (exec_hook h s) = led s /\
    ADCCFG (exec_hook h s) = ADCCFG s /\
    (forall bit : positive,
        sbit_read (P2 (exec_hook h s)) (Z.pos bit) =
        sbit_read (P2 s) (Z.pos bit)).
Proof.
  intros h s. split; [destruct h; reflexivity |].
  split; [destruct h; reflexivity |].
  intros bit. unfold sbit_read.
  destruct h; cbn [exec_hook]; unfold board_pre_tx, board_pre_rx, set_P2_0;
    cbn [P2]; apply sbit_write_other; lia.
Qed.

(** C10.  The build declares the board a ranging responder
    ([RADIO_RANGING_RESPONDER = 1]) and at the same time not
    receive-capable ([CONFIG_CAPABLE_RF_RX = 0]): on this board the
    ranging-responder flag does not imply the rx-capable flag. *)
Theorem ranging_responder_without_rx :
  RADIO_RANGING_RESPONDER = 1 /\
  CONFIG_CAPABLE_RF_RX = 0 /\
  ranging_responder capabilities = true /\
  rx_capable capabilities = false /\
  ~ (ranging_responder capabilities = true -> rx_capable capabilities = true).
Proof.
  split; [reflexivity |]. split; [reflexivity |].
  split; [reflexivity |]. split; [reflexivity |].
  intros H. specialize (H eq_refl). discriminate H.
Qed.

(** ** More on the hooks: composition, port value, range *)

(** A second write to the same bit replaces the first. *)
Lemma sbit_write_overwrite (reg bit v w : Z) :
  0 <= bit ->
  sbit_write (sbit_write reg bit v) bit w = sbit_write reg bit w.
Proof.
  intros Hbit. apply Z.bits_inj'. intros m Hm.
  destruct (Z.eq_dec bit m) as [<- | Hne].
  - fold (sbit_read (sbit_write (sbit_write reg bit v) bit w) bit).
    fold (sbit_read (sbit_write reg bit w) bit).
    rewrite !sbit_write_read by assumption. reflexivity.
  - rewrite !sbit_write_other by assumption. reflexivity.
Qed.

Lemma exec_hook_absorb (h h' : hook) (s : board) :
  exec_hook h' (exec_hook h s) = exec_hook h' s.
Proof.
  destruct h, h'; cbn [exec_hook];
    unfold board_pre_tx, board_pre_rx, set_P2_0; cbn [P2 ADCCFG led];
    f_equal; apply sbit_write_overwrite; lia.
Qed.

Lemma exec_hook_after_run (h : hook) (hs : list hook) (s : board) :
  exec_hook h (run_hooks hs s) = exec_hook h s.
Proof.
  revert s. induction hs as [| a hs IH]; intros s; [reflexivity |].
  change (run_hooks (a :: hs) s) with (run_hooks hs (exec_hook a s)).
  rewrite IH. apply exec_hook_absorb.
Qed.

Lemma exec_hook_fixed (h : hook) (s : board) :
  bias_line s = dictated h -> exec_hook h s = s.
Proof.
  intros Hb. destruct s as [p2 adc l].
  destruct h; cbn [exec_hook]; unfold board_pre_tx, board_pre_rx, set_P2_0;
    cbn [P2 ADCCFG led]; f_equal; apply sbit_write_same; exact Hb.
Qed.

(** Writing bit 0 replaces the parity of the register value and keeps the
    rest of it. *)
Lemma sbit_write_0_value (reg v : Z) :
  sbit_write reg 0 v =
  reg + Z.b2z (negb (v =? 0)) - Z.b2z (sbit_read reg 0).
Proof.
  unfold sbit_read. rewrite Z.bit0_odd.
  assert (E : sbit_write reg 0 v = 2 * Z.div2 reg + Z.b2z (negb (v =? 0))).
  { apply Z.bits_inj'. intros m Hm.
    destruct (Z.eq_dec m 0) as [-> | Hne].
    - fold (sbit_read (sbit_write reg 0 v) 0).
      rewrite sbit_write_read by lia. rewrite Z.testbit_0_r. reflexivity.
    - rewrite sbit_write_other by lia.
      replace m with (Z.succ (m - 1)) by lia.
      rewrite Z.testbit_succ_r by lia.
      rewrite Z.div2_div, Z.div2_bits by lia. reflexivity. }
  rewrite E. pose proof (Z.div2_odd reg) as D. lia.
Qed.

Lemma exec_hook_port_value (h : hook) (s : board) :
  P2 (exec_hook h s) = P2 s + Z.b2z (dictated h) - Z.b2z (bias_line s).
Proof.
  unfold bias_line, P2_0.
  destruct h; cbn [exec_hook dictated]; unfold board_pre_tx, board_pre_rx, set_P2_0;
    cbn [P2]; rewrite sbit_write_0_value; reflexivity.
Qed.

(** X1.  Last writer wins on the whole board state: after any sequence of
    hooks ending in [h], from any state, the board is exactly as after
    the single call [h] made from that state.  Earlier hooks leave no
    trace in any register. *)
Theorem run_hooks_last_wins :
  forall (hs : list hook) (h : hook) (s : board),
    run_hooks (hs ++ [h]) s = exec_hook h s.
Proof.
  intros hs h s. rewrite run_hooks_snoc. apply exec_hook_after_run.
Qed.

(** X2.  A hook pair [h] then [h'] gives back the state it started from
    exactly when the bias line already had the level of the second hook:
    a transmit cycle ([board_pre_tx] then [board_pre_rx]) restores the
    port when, and only when, it is entered with the bias off. *)
Theorem hook_pair_restores_iff :
  forall (h h' : hook) (s : board),
    exec_hook h' (exec_hook h s) = s <-> bias_line s = dictated h'.
Proof.
  intros h h' s. rewrite exec_hook_absorb. split.
  - intros Heq. rewrite <- Heq. apply bias_after_hook.
  - apply exec_hook_fixed.
Qed.

(** X3.  Value of the port across hooks: over any sequence of hooks the
    value of P2 moves only by the change of its bit 0, so
    [P2 - bit0] is kept, and the value ends within one of where it
    started. *)
Theorem run_hooks_port_value :
  forall (hs : list hook) (s : board),
    P2 (run_hooks hs s) =
      P2 s + Z.b2z (bias_line (run_hooks hs s)) - Z.b2z (bias_line s) /\
    P2 s - 1 <= P2 (run_hooks hs s) <= P2 s + 1.
Proof.
  intros hs s.
  assert (E : P2 (run_hooks hs s) =
              P2 s + Z.b2z (bias_line (run_hooks hs s)) - Z.b2z (bias_line s)).
  { revert s. induction hs as [| a hs IH]; intros s.
    - cbn [run_hooks fold_left]. lia.
    - change (run_hooks (a :: hs) s) with (run_hooks hs (exec_hook a s)).
      rewrite IH, exec_hook_port_value, bias_after_hook. lia. }
  split; [exact E |].
  rewrite E.
  destruct (bias_line (run_hooks hs s)), (bias_line s); cbn [Z.b2z]; lia.
Qed.

(** X4.  On an 8-bit port value the two bit writes are the byte masks:
    [board_pre_tx] leaves [P2 | 0x01] and [board_pre_rx] leaves
    [P2 & 0xFE]. *)
Theorem hooks_as_byte_masks :
  forall s : board,
    is_byte (P2 s) ->
    P2 (board_pre_tx s) = Z.lor (P2 s) 0x01 /\
    P2 (board_pre_rx s) = Z.land (P2 s) 0xFE.
Proof.
  intros s Hb. unfold board_pre_tx, board_pre_rx, set_P2_0; cbn [P2].
  split.
  - unfold sbit_write. cbn [Z.eqb]. apply Z.setbit_spec'.
  - apply is_byte_bits in Hb. destruct Hb as [_ Hhi].
    apply Z.bits_inj'. intros m Hm. rewrite Z.land_spec.
    destruct (Z.eq_dec m 0) as [-> | Hne].
    + fold (sbit_read (sbit_write (P2 s) 0 0) 0).
      rewrite sbit_write_read by lia. cbn. apply eq_sym, andb_false_r.
    + rewrite sbit_write_other by lia.
      destruct (Z_lt_le_dec m 8) as [Hlt | Hge].
      * assert (Hm' : m = 1 \/ m = 2 \/ m = 3 \/ m = 4 \/ m = 5 \/ m = 6 \/ m = 7)
          by lia.
        destruct Hm' as [-> | [-> | [-> | [-> | [-> | [-> | ->]]]]]];
          cbn [Z.testbit Pos.testbit Pos.pred_N]; rewrite andb_true_r; reflexivity.
      * rewrite (Hhi m Hge). reflexivity.
Qed.

(** The mask forms at the port value 0x55. *)
Lemma hooks_as_byte_masks_witness :
  is_byte (P2 {| P2 := 0x55; ADCCFG := 3; led := false |}) /\
  P2 (board_pre_tx {| P2 := 0x55; ADCCFG := 3; led := false |}) =
    Z.lor (P2 {| P2 := 0x55; ADCCFG := 3; led := false |}) 0x01 /\
  P2 (board_pre_rx {| P2 := 0x55; ADCCFG := 3; led := false |}) =
    Z.land (P2 {| P2 := 0x55; ADCCFG := 3; led := false |}) 0xFE.
Proof.
  assert (H : is_byte (P2 {| P2 := 0x55; ADCCFG := 3; led := false |})).
  { unfold is_byte; cbn [P2]; lia. }
  split; [exact H |].
  exact (hooks_as_byte_masks {| P2 := 0x55; ADCCFG := 3; led := false |} H).
Defined.

(** X5.  The hooks keep the port an 8-bit value: from a port value in
    0..255, any sequence of hooks leaves a port value in 0..255. *)
Theorem run_hooks_port_is_byte :
  forall (hs : list hook) (s : board),
    is_byte (P2 s) -> is_byte (P2 (run_hooks hs s)).
Proof.
  intros hs. induction hs as [| a hs IH]; intros s Hb; [exact Hb |].
  change (run_hooks (a :: hs) s) with (run_hooks hs (exec_hook a s)).
  apply IH.
  destruct a; cbn [exec_hook]; unfold board_pre_tx, board_pre_rx, set_P2_0;
    cbn [P2]; apply sbit_write_is_byte; (lia || exact Hb).
Qed.

(** Range kept at the top of the range: arming with P2 = 0xFE gives 0xFF,
    and further hooks stay below 256. *)
Lemma run_hooks_port_is_byte_witness :
  is_byte (P2 {| P2 := 0xFE; ADCCFG := 3; led := true |}) /\
  is_byte
    (P2 (run_hooks [pre_transmit; pre_receive; pre_transmit]
           {| P2 := 0xFE; ADCCFG := 3; led := true |})).
Proof.
  assert (H : is_byte (P2 {| P2 := 0xFE; ADCCFG := 3; led := true |})).
  { unfold is_byte; cbn [P2]; lia. }
  split; [exact H |].
  exact (run_hooks_port_is_byte [pre_transmit; pre_receive; pre_transmit]
           {| P2 := 0xFE; ADCCFG := 3; led := true |} H).
Defined.
